(** * kuukan: composition of vector, metric and normed spaces

    A verification development for the header-only library [kuukan]
    (include/kuukan) and its sample client (examples/minimal_function_space.cpp).

    The library works at two levels, and so does this file.

    - At compile time its templates accept or reject their arguments through
      C++20 concepts ([FieldLike], [OrderedMeasure], [CallableLike],
      [VectorSpaceLike], [MetricSpaceLike]) and requires-clauses.  Module
      [cpp] describes the part of the C++ type system these checks read
      (types, the members a class exposes, operators, conversions, call
      signatures), and module [shape] transcribes the concepts and the
      three class templates over it.
    - At run time the composed structures are bundles of stateless functors.
      Module [kuukan] gives them as records of functions, and module
      [example] is the function-space client.

    Modules [client] and [samples] describe client code to the compile-time
    checks; [conformance] and [behaviour] hold the properties. *)

From stdpp Require Import base option strings list gmap fin_maps.
From Stdlib Require Import PrimFloat.

Open Scope string_scope.

(** * The C++ types the concepts inspect *)
Module cpp.

(** Types.  Class types declared by a client are referred to by name; the
    specialisations of the library's templates are types of their own, and
    [TInducedDistance VS N] is the nested class
    [NormedSpace<VS, N>::InducedDistance]. *)
Inductive ty : Type :=
| TBool
| TInt
| TDouble
| TNamed (name : string)
| TConst (t : ty)
| TLRef (t : ty)
| TVectorSpace (ElementType ScalarType Addition ScalarAction Negation ZeroSupplier Equality : ty)
| TMetricSpace (ElementType DistanceFunction : ty)
| TNormedSpace (VS NormFunction : ty)
| TInducedDistance (VS NormFunction : ty).

#[export] Instance ty_eq_dec : EqDecision ty.
Proof. solve_decision. Defined.

(** [const T&], the argument type of every entry point of the library.
    A second [const] folds into the first, and a reference to a reference
    is that reference. *)
Definition cref (t : ty) : ty :=
  match t with
  | TLRef _ => t
  | TConst _ => TLRef t
  | _ => TLRef (TConst t)
  end.

(** The object type behind a possibly const, possibly reference type. *)
Definition decay (t : ty) : ty :=
  let u := match t with TLRef u => u | _ => t end in
  match u with TConst v => v | _ => u end.

(** The binary operators named by [FieldLike] and [OrderedMeasure]. *)
Inductive binop : Set := Add | Sub | Mul | Div | Eq | Lt | Le.

#[export] Instance binop_eq_dec : EqDecision binop.
Proof. solve_decision. Defined.

(** A call signature: parameter types and the type of the call expression
    (what [decltype] gives for the call). *)
Record signature : Type := Sig { params : list ty; result : ty }.

(** What a qualified name [T::name] can denote.  The library's structures
    are made of [using name = t;] (or a nested class),
    [static inline constexpr t name{};] and
    [static constexpr r name(params...)].  A class written by a client may
    also have non-static data members, unscoped enumerators and non-static
    member functions, and the concepts treat them differently: their
    requirements are unevaluated operands, in which [T::name] may name a
    non-static data member.  An object carries the signature with which it
    can be called, if any (its type's [operator()], or the function a
    pointer points to), so that [T::name(args...)] can be checked on the
    member alone.  Members are accessible; a name denotes one entity, which
    is not a template, and a function has no default arguments. *)
Inductive member : Type :=
| Typedef (t : ty)
| StaticObject (t : ty) (call : option signature)
| StaticFunction (s : signature)
| NonStaticObject (t : ty) (call : option signature)
| Enumerator
| MemberFunction (s : signature).

(** A complete class type, as far as the concepts can see it. *)
Record class : Type := Class {
  default_initializable : bool;            (* std::default_initializable<T>, const T alike *)
  operators : list (binop * ty);           (* type of [lhs op rhs], both lvalues of the class *)
  converts_to : list ty;                   (* implicit conversions to other object types,
                                              base classes included *)
  call_operator : option signature;        (* operator() const *)
  members : gmap string member             (* what [T::name] finds *)
}.

(** The classes a translation unit declares, by name. *)
Abbreviation program := (gmap string class).

(** Built-in arithmetic: [bool] operands are promoted to [int]. *)
Definition arithmetic (promoted : ty) (others : list ty) : class :=
  Class true
    [(Add, promoted); (Sub, promoted); (Mul, promoted); (Div, promoted);
     (Eq, TBool); (Lt, TBool); (Le, TBool)]
    others None ∅.

(** The class or built-in type a plain (unqualified, non-template) type
    denotes. *)
Definition declared (Γ : program) (t : ty) : option class :=
  match t with
  | TBool => Some (arithmetic TInt [TInt; TDouble])
  | TInt => Some (arithmetic TInt [TBool; TDouble])
  | TDouble => Some (arithmetic TDouble [TBool; TInt])
  | TNamed n => Γ !! n
  | _ => None
  end.

Fixpoint assoc {A B} `{EqDecision A} (k : A) (l : list (A * B)) : option B :=
  match l with
  | [] => None
  | (k', v) :: l' => if decide (k = k') then Some v else assoc k l'
  end.

(** [decltype(lhs op rhs)] for two lvalues of type [t]; [None] when the
    expression is ill-formed. *)
Definition binary_result (Γ : program) (op : binop) (t : ty) : option ty :=
  c ← declared Γ t; assoc op (operators c).

(** A prvalue can initialise an object or bind to a [const] reference, but
    not to a non-const lvalue reference. *)
Definition accepts_rvalue (to : ty) : bool :=
  match to with
  | TLRef (TConst _) => true
  | TLRef _ => false
  | _ => true
  end.

Definition implicit_conversion (Γ : program) (from to : ty) : bool :=
  match declared Γ from with
  | Some c => bool_decide (to ∈ converts_to c)
  | None => false
  end.

(** [std::convertible_to<From, To>]: identity (a reference binds to an
    lvalue of its own type), a copy (object types can be copied), or a
    declared implicit conversion. *)
Definition convertible_to (Γ : program) (from to : ty) : bool :=
  bool_decide (from = to)
  || accepts_rvalue to
     && (bool_decide (decay from = decay to)
         || implicit_conversion Γ (decay from) (decay to)).

(** Overload resolution for one candidate: as many arguments as
    parameters, each convertible to its parameter. *)
Fixpoint passable (Γ : program) (args ps : list ty) : bool :=
  match args, ps with
  | [], [] => true
  | a :: args', p :: ps' => convertible_to Γ a p && passable Γ args' ps'
  | _, _ => false
  end.

(** The type of a call through signature [s], when the call is well-formed. *)
Definition call_through (Γ : program) (s : option signature) (args : list ty) : option ty :=
  s ← s; if passable Γ args (params s) then Some (result s) else None.

(** [typename T::name]. *)
Definition member_type (c : class) (name : string) : option ty :=
  match members c !! name with
  | Some (Typedef t) => Some t
  | _ => None
  end.

(** [T::name] as an expression in an unevaluated operand: data members,
    enumerators and static member functions qualify; types and non-static
    member functions do not. *)
Definition member_expression (c : class) (name : string) : bool :=
  match members c !! name with
  | Some (StaticObject _ _) | Some (NonStaticObject _ _)
  | Some Enumerator | Some (StaticFunction _) => true
  | _ => false
  end.

(** [decltype(T::name(args...))] in an unevaluated operand: a call of a
    static member function, or of a data member that can be called. *)
Definition member_call (Γ : program) (c : class) (name : string) (args : list ty) : option ty :=
  match members c !! name with
  | Some (StaticFunction s) => call_through Γ (Some s) args
  | Some (StaticObject _ call) | Some (NonStaticObject _ call) => call_through Γ call args
  | _ => None
  end.

End cpp.

(** * The concepts and the class templates

    The functor types handed to the templates are the stateless function
    objects the headers document: literal types, called through their
    [const] call operator, the one a [constexpr] instance offers.  A
    vector-space-like base of [NormedSpace] is a class that can be derived
    from. *)
Module shape.
Import cpp.

Section templates.
(** [Γ] is the client's translation unit; [complete T] is the class a
    type denotes once its template, if any, has been instantiated
    ([None]: the type is ill-formed or not a class). *)
Context (Γ : program) (complete : ty → option class).

(** ** concepts/core_concepts.hpp *)

(** [{ e } -> std::same_as<t>] and [{ e } -> std::convertible_to<t>],
    for an expression [e] of type [found]. *)
Definition same_as (found : option ty) (t : ty) : bool :=
  bool_decide (found = Some t).

Definition converts (found : option ty) (t : ty) : bool :=
  match found with
  | Some r => convertible_to Γ r t
  | None => false
  end.

(** A concept applied to a type expression that may itself be ill-formed. *)
Definition satisfies (concept : ty → bool) (t : option ty) : bool :=
  from_option concept false t.

Definition FieldLike (ScalarType : ty) : bool :=
  same_as (binary_result Γ Add ScalarType) ScalarType
  && same_as (binary_result Γ Sub ScalarType) ScalarType
  && same_as (binary_result Γ Mul ScalarType) ScalarType
  && same_as (binary_result Γ Div ScalarType) ScalarType
  && converts (binary_result Γ Eq ScalarType) TBool.

Definition OrderedMeasure (MeasureType : ty) : bool :=
  same_as (binary_result Γ Add MeasureType) MeasureType
  && converts (binary_result Γ Eq MeasureType) TBool
  && converts (binary_result Γ Lt MeasureType) TBool
  && converts (binary_result Γ Le MeasureType) TBool.

(** [std::invoke_result_t<F, Args...>]; [None] when [F] cannot be
    invoked with [Args...]. *)
Definition invoke_result_t (F : ty) (Args : list ty) : option ty :=
  c ← complete F; call_through Γ (call_operator c) Args.

Definition regular_invocable (F : ty) (Args : list ty) : bool :=
  bool_decide (is_Some (invoke_result_t F Args)).

Definition CallableLike (F R : ty) (Args : list ty) : bool :=
  regular_invocable F Args && converts (invoke_result_t F Args) R.

(** [std::default_initializable<F>]. *)
Definition default_initializable (F : ty) : bool :=
  match complete F with
  | Some c => cpp.default_initializable c
  | None => false
  end.

(** The static functor instance [static inline constexpr F name{};]. *)
Definition functor_instance (F : ty) : member :=
  StaticObject (TConst F) (c ← complete F; call_operator c).

(** A class with no state, no operators and the given static members. *)
Definition structure (ms : gmap string member) : class :=
  Class true [] [] None ms.

(** ** vector/vector_space.hpp *)

Definition VectorSpace
    (ElementType ScalarType Addition ScalarAction Negation ZeroSupplier Equality : ty)
    : option class :=
  if FieldLike ScalarType
     && default_initializable Addition
     && default_initializable ScalarAction
     && default_initializable Negation
     && default_initializable ZeroSupplier
     && default_initializable Equality
     && CallableLike Addition ElementType [cref ElementType; cref ElementType]
     && CallableLike ScalarAction ElementType [cref ScalarType; cref ElementType]
     && CallableLike Negation ElementType [cref ElementType]
     && CallableLike ZeroSupplier ElementType []
     && CallableLike Equality TBool [cref ElementType; cref ElementType]
  then Some (structure
    {[ "element_type" := Typedef ElementType;
       "scalar_type" := Typedef ScalarType;
       "addition" := functor_instance Addition;
       "scalar_action" := functor_instance ScalarAction;
       "negation" := functor_instance Negation;
       "zero_supplier" := functor_instance ZeroSupplier;
       "equality" := functor_instance Equality;
       "difference" :=
         StaticFunction (Sig [cref ElementType; cref ElementType] ElementType) ]})
  else None.

Definition VectorSpaceLike (T : ty) : bool :=
  match complete T with
  | None => false
  | Some c =>
    match member_type c "element_type", member_type c "scalar_type" with
    | Some element_type, Some _ =>
        member_expression c "addition"
        && member_expression c "scalar_action"
        && member_expression c "negation"
        && member_expression c "zero_supplier"
        && member_expression c "equality"
        && same_as (member_call Γ c "difference" [cref element_type; cref element_type])
                   element_type
    | _, _ => false
    end
  end.

(** ** metric/metric_space.hpp *)

Definition MetricSpace (ElementType DistanceFunction : ty) : option class :=
  let result :=
    invoke_result_t DistanceFunction [cref ElementType; cref ElementType] in
  if default_initializable DistanceFunction
     && satisfies OrderedMeasure result
  then
    measure_type ← result;
    Some (structure
      {[ "element_type" := Typedef ElementType;
         "measure_type" := Typedef measure_type;
         "distance" := functor_instance DistanceFunction;
         "dist" :=
           StaticFunction (Sig [cref ElementType; cref ElementType] measure_type) ]})
  else None.

Definition MetricSpaceLike (T : ty) : bool :=
  match complete T with
  | None => false
  | Some c =>
    match member_type c "element_type", member_type c "measure_type" with
    | Some element_type, Some measure_type =>
        same_as (member_call Γ c "distance" [cref element_type; cref element_type])
                measure_type
    | _, _ => false
    end
  end.

(** ** norm/normed_space.hpp *)

(** [typename T::name]. *)
Definition typename (T : ty) (name : string) : option ty :=
  c ← complete T; member_type c name.

(** [std::invoke_result_t<NormFunction, const typename VS::element_type&>]. *)
Definition norm_result (VS NormFunction : ty) : option ty :=
  element_type ← typename VS "element_type";
  invoke_result_t NormFunction [cref element_type].

(** The constraints in the template head of [NormedSpace]. *)
Definition NormedSpace_requires (VS NormFunction : ty) : bool :=
  VectorSpaceLike VS
  && default_initializable NormFunction
  && satisfies OrderedMeasure (norm_result VS NormFunction).

(** The members [NormedSpace<VS, NormFunction>] declares itself. *)
Definition NormedSpace_declares (VS NormFunction element_type measure_type : ty)
    : gmap string member :=
  {[ "element_type" := Typedef element_type;
     "measure_type" := Typedef measure_type;
     "norm" := functor_instance NormFunction;
     "InducedDistance" := Typedef (TInducedDistance VS NormFunction);
     "metric_space" :=
       Typedef (TMetricSpace element_type (TInducedDistance VS NormFunction));
     "metric_type" :=
       Typedef (TMetricSpace element_type (TInducedDistance VS NormFunction));
     "distance" :=
       StaticFunction (Sig [cref element_type; cref element_type] measure_type) ]}.

(** The names [VectorSpaceLike] asks for that the derived class does not
    declare, and so leaves to its base. *)
Definition inherited : list string :=
  ["scalar_type"; "addition"; "scalar_action"; "negation"; "zero_supplier";
   "equality"; "difference"].

(** [struct NormedSpace : VS]: a name declared in the derived class hides
    the base's, every other name of the base is found through it. *)
Definition NormedSpace (VS NormFunction : ty) : option class :=
  if NormedSpace_requires VS NormFunction then
    base ← complete VS;
    element_type ← typename VS "element_type";
    measure_type ← norm_result VS NormFunction;
    Some (Class (cpp.default_initializable base) (operators base)
                (converts_to base) (call_operator base)
                (NormedSpace_declares VS NormFunction element_type measure_type
                 ∪ members base))
  else None.

(** [NormedSpace<VS, NormFunction>::InducedDistance], a stateless class
    whose [operator()(const element_type&, const element_type&) const]
    returns [measure_type]. *)
Definition InducedDistance (VS NormFunction : ty) : option class :=
  if NormedSpace_requires VS NormFunction then
    element_type ← typename VS "element_type";
    measure_type ← norm_result VS NormFunction;
    Some (Class true [] [] (Some (Sig [cref element_type; cref element_type] measure_type)) ∅)
  else None.

End templates.

(** Instantiation: the class a type denotes.  Member lookup sees through a
    [const] qualifier; a reference type is not a class. *)
Fixpoint complete (Γ : program) (T : ty) : option class :=
  match T with
  | TBool | TInt | TDouble | TNamed _ => declared Γ T
  | TConst t => complete Γ t
  | TLRef _ => None
  | TVectorSpace E K A SA Ng Z Q => VectorSpace Γ (complete Γ) E K A SA Ng Z Q
  | TMetricSpace E D => MetricSpace Γ (complete Γ) E D
  | TNormedSpace VS N => NormedSpace Γ (complete Γ) VS N
  | TInducedDistance VS N => InducedDistance Γ (complete Γ) VS N
  end.

(** ** The vector-space role, in words

    The description of the structural-role check, to be compared with
    [VectorSpaceLike].  It is given by the kinds of member a class has, not
    by the functions the check is made of. *)

(** A member that can be named as a value: a data member, static or not, an
    enumerator or a static member function, of any type. *)
Inductive names_a_value : member → Prop :=
| static_object_value t call : names_a_value (StaticObject t call)
| nonstatic_object_value t call : names_a_value (NonStaticObject t call)
| enumerator_value : names_a_value Enumerator
| static_function_value s : names_a_value (StaticFunction s).

(** A static operation-holder: a static member that can be called, that is,
    a static object with a call signature or a static member function. *)
Inductive holds_an_operation : member → Prop :=
| functor_object_holds t s : holds_an_operation (StaticObject t (Some s))
| static_function_holds s : holds_an_operation (StaticFunction s).

(** An entry point that takes [args] and returns exactly [r]: a static
    member function, or a data member that can be called. *)
Inductive entry_point (Γ : program) (args : list ty) (r : ty) : member → Prop :=
| static_function_entry s :
    passable Γ args (params s) = true → result s = r →
    entry_point Γ args r (StaticFunction s)
| static_object_entry t s :
    passable Γ args (params s) = true → result s = r →
    entry_point Γ args r (StaticObject t (Some s))
| nonstatic_object_entry t s :
    passable Γ args (params s) = true → result s = r →
    entry_point Γ args r (NonStaticObject t (Some s)).

(** Class [c] has a member [name] of which [P] holds. *)
Definition exposes (c : class) (name : string) (P : member → Prop) : Prop :=
  ∃ m, members c !! name = Some m ∧ P m.

(** The type exposes member type names for its element and scalar, exposes
    the five named members, each a [holder], and exposes a [difference]
    entry point that takes two elements and returns exactly the element
    type. *)
Definition vector_space_shape (Γ : program) (holder : member → Prop) (T : ty) : Prop :=
  ∃ c element_type scalar_type,
    complete Γ T = Some c
    ∧ members c !! "element_type" = Some (Typedef element_type)
    ∧ members c !! "scalar_type" = Some (Typedef scalar_type)
    ∧ exposes c "addition" holder
    ∧ exposes c "scalar_action" holder
    ∧ exposes c "negation" holder
    ∧ exposes c "zero_supplier" holder
    ∧ exposes c "equality" holder
    ∧ exposes c "difference"
        (entry_point Γ [cref element_type; cref element_type] element_type).

End shape.

(** * The composed structures at run time

    A functor type of the library is stateless and regular: it is given by
    what its [operator()] computes, a total function with the exact
    signature the template documents.  A specialisation of a class template
    is a record of its template arguments; its members are definitions over
    that record, named as in the headers. *)
Module kuukan.

(** ** vector/vector_space.hpp *)

(** What a type [VS] with [VectorSpaceLike<VS>] offers to its users.  The
    concept leaves the types of the five functor instances open; it fixes
    only the signature of [difference]. *)
Module VectorSpaceLike.
Record t : Type := Build {
  element_type : Type;
  scalar_type : Type;
  addition_t : Type;
  scalar_action_t : Type;
  negation_t : Type;
  zero_supplier_t : Type;
  equality_t : Type;
  addition : addition_t;
  scalar_action : scalar_action_t;
  negation : negation_t;
  zero_supplier : zero_supplier_t;
  equality : equality_t;
  difference : element_type → element_type → element_type
}.
End VectorSpaceLike.

Module VectorSpace.
Record t : Type := Build {
  ElementType : Type;
  ScalarType : Type;
  Addition : ElementType → ElementType → ElementType;
  ScalarAction : ScalarType → ElementType → ElementType;
  Negation : ElementType → ElementType;
  ZeroSupplier : unit → ElementType;
  Equality : ElementType → ElementType → bool
}.

Section members.
Context (V : t).

Definition element_type : Type := ElementType V.
Definition scalar_type : Type := ScalarType V.

Definition addition : element_type → element_type → element_type := Addition V.
Definition scalar_action : scalar_type → element_type → element_type := ScalarAction V.
Definition negation : element_type → element_type := Negation V.
Definition zero_supplier : unit → element_type := ZeroSupplier V.
Definition equality : element_type → element_type → bool := Equality V.

Definition difference (element_left element_right : element_type) : element_type :=
  addition element_left (negation element_right).

(** "VectorSpace automatically satisfies this concept." *)
Definition as_VectorSpaceLike : VectorSpaceLike.t :=
  VectorSpaceLike.Build element_type scalar_type _ _ _ _ _
    addition scalar_action negation zero_supplier equality difference.
End members.
End VectorSpace.

(** ** metric/metric_space.hpp *)

Module MetricSpaceLike.
Record t : Type := Build {
  element_type : Type;
  measure_type : Type;
  distance : element_type → element_type → measure_type
}.
End MetricSpaceLike.

Module MetricSpace.
(** [measure_type] is the result type of [DistanceFunction]. *)
Record t : Type := Build {
  ElementType : Type;
  measure_type : Type;
  DistanceFunction : ElementType → ElementType → measure_type
}.

Section members.
Context (M : t).

Definition element_type : Type := ElementType M.

Definition distance : element_type → element_type → measure_type M :=
  DistanceFunction M.

Definition dist (element_left element_right : element_type) : measure_type M :=
  distance element_left element_right.

(** "MetricSpace automatically satisfies this concept." *)
Definition as_MetricSpaceLike : MetricSpaceLike.t :=
  MetricSpaceLike.Build element_type (measure_type M) distance.
End members.
End MetricSpace.

(** ** norm/normed_space.hpp *)

Module NormedSpace.
(** [measure_type] is the result type of [NormFunction]. *)
Record t : Type := Build {
  VS : VectorSpaceLike.t;
  measure_type : Type;
  NormFunction : VectorSpaceLike.element_type VS → measure_type
}.

Section members.
Context (N : t).

Definition element_type : Type := VectorSpaceLike.element_type (VS N).

Definition norm : element_type → measure_type N := NormFunction N.

Definition InducedDistance (element_left element_right : element_type) : measure_type N :=
  norm (VectorSpaceLike.difference (VS N) element_left element_right).

Definition metric_space : MetricSpace.t :=
  MetricSpace.Build element_type (measure_type N) InducedDistance.

Definition metric_type : MetricSpace.t := metric_space.

Definition distance (element_left element_right : element_type) : measure_type N :=
  MetricSpace.dist metric_space element_left element_right.

(** The derived class seen as a vector-space-like type: [element_type]
    is its own alias, the other members are those of the base [VS]. *)
Definition as_VectorSpaceLike : VectorSpaceLike.t :=
  VectorSpaceLike.Build element_type (VectorSpaceLike.scalar_type (VS N)) _ _ _ _ _
    (VectorSpaceLike.addition (VS N))
    (VectorSpaceLike.scalar_action (VS N))
    (VectorSpaceLike.negation (VS N))
    (VectorSpaceLike.zero_supplier (VS N))
    (VectorSpaceLike.equality (VS N))
    (VectorSpaceLike.difference (VS N)).

(** The derived class seen as a metric-space-like type. *)
Definition as_MetricSpaceLike : MetricSpaceLike.t :=
  MetricSpaceLike.Build element_type (measure_type N) distance.
End members.
End NormedSpace.

End kuukan.

(** * examples/minimal_function_space.cpp *)
Module example.
Import kuukan.

Definition ScalarType : Type := float.

Record RealFunctionElement : Type := {
  evaluator : ScalarType → ScalarType;
  symbolic_identity : string
}.

Section operations.
(** [std::to_string(double)], used only for the label of a scaled
    function. *)
Context (to_string : ScalarType → string).

Definition FunctionAddition (function_left function_right : RealFunctionElement)
    : RealFunctionElement :=
  {| evaluator := λ x, (evaluator function_left x + evaluator function_right x)%float;
     symbolic_identity :=
       "(" +:+ symbolic_identity function_left +:+ " + "
           +:+ symbolic_identity function_right +:+ ")" |}.

Definition FunctionScalarAction (scalar_value : ScalarType)
    (function_value : RealFunctionElement) : RealFunctionElement :=
  {| evaluator := λ x, (scalar_value * evaluator function_value x)%float;
     symbolic_identity :=
       "(" +:+ to_string scalar_value +:+ " * "
           +:+ symbolic_identity function_value +:+ ")" |}.

Definition FunctionNegation (function_value : RealFunctionElement) : RealFunctionElement :=
  {| evaluator := λ x, (- evaluator function_value x)%float;
     symbolic_identity := "(-" +:+ symbolic_identity function_value +:+ ")" |}.

Definition FunctionZeroSupplier (_ : unit) : RealFunctionElement :=
  {| evaluator := λ _, 0%float; symbolic_identity := "0" |}.

Definition FunctionEquality (function_left function_right : RealFunctionElement) : bool :=
  String.eqb (symbolic_identity function_left) (symbolic_identity function_right).

Definition FunctionVectorSpace : VectorSpace.t :=
  VectorSpace.Build RealFunctionElement ScalarType
    FunctionAddition FunctionScalarAction FunctionNegation
    FunctionZeroSupplier FunctionEquality.

Definition SupNormPlaceholder (element : RealFunctionElement) : float := 0%float.

Definition FunctionSupNormedSpace : NormedSpace.t :=
  NormedSpace.Build (VectorSpace.as_VectorSpaceLike FunctionVectorSpace) float
    SupNormPlaceholder.

(** The elements and values [main] builds; [sin] and [cos] stand for
    [std::sin] and [std::cos]. *)
Context (sin cos : ScalarType → ScalarType).

Definition sin_function : RealFunctionElement :=
  {| evaluator := λ x, sin x; symbolic_identity := "sin" |}.

Definition cos_function : RealFunctionElement :=
  {| evaluator := λ x, cos x; symbolic_identity := "cos" |}.

Definition sum_function : RealFunctionElement :=
  VectorSpace.addition FunctionVectorSpace sin_function cos_function.

Definition neg_function : RealFunctionElement :=
  VectorSpace.negation FunctionVectorSpace cos_function.

Definition abstract_distance : float :=
  NormedSpace.distance FunctionSupNormedSpace sin_function cos_function.
End operations.

End example.

(** The client's translation unit as the concepts see it. *)
Module client.
Import cpp.

(** A stateless functor class with one call operator. *)
Definition functor (ps : list ty) (r : ty) : class :=
  Class true [] [] (Some (Sig ps r)) ∅.

Definition RealFunctionElement : ty := TNamed "RealFunctionElement".
Definition ScalarType : ty := TDouble.

Definition translation_unit : program :=
  {[ "RealFunctionElement" := Class true [] [] None ∅;
     "FunctionAddition" :=
       functor [cref RealFunctionElement; cref RealFunctionElement] RealFunctionElement;
     "FunctionScalarAction" :=
       functor [cref ScalarType; cref RealFunctionElement] RealFunctionElement;
     "FunctionNegation" := functor [cref RealFunctionElement] RealFunctionElement;
     "FunctionZeroSupplier" := functor [] RealFunctionElement;
     "FunctionEquality" :=
       functor [cref RealFunctionElement; cref RealFunctionElement] TBool;
     "SupNormPlaceholder" := functor [cref RealFunctionElement] TDouble ]}.

Definition FunctionVectorSpace : ty :=
  TVectorSpace RealFunctionElement ScalarType
    (TNamed "FunctionAddition") (TNamed "FunctionScalarAction")
    (TNamed "FunctionNegation") (TNamed "FunctionZeroSupplier")
    (TNamed "FunctionEquality").

Definition FunctionSupNormedSpace : ty :=
  TNormedSpace FunctionVectorSpace (TNamed "SupNormPlaceholder").

End client.

(** Further client code, written against the library's documented
    interface, on which the checks are exercised. *)
Module samples.
Import cpp.

Definition Natural : ty := TNamed "Natural".
Definition Point : ty := TNamed "Point".

(** [struct Opaque] exposes the names [VectorSpaceLike] asks for, but its
    five "operations" are plain integers:
<<
    struct Opaque {
      using element_type = int;
      using scalar_type  = double;
      static constexpr int addition = 0, scalar_action = 0, negation = 0,
                           zero_supplier = 0, equality = 0;
      static int difference(const int&, const int&);
    };
>> *)
Definition Opaque : class :=
  Class true [] [] None
    {[ "element_type" := Typedef TInt;
       "scalar_type" := Typedef TDouble;
       "addition" := StaticObject (TConst TInt) None;
       "scalar_action" := StaticObject (TConst TInt) None;
       "negation" := StaticObject (TConst TInt) None;
       "zero_supplier" := StaticObject (TConst TInt) None;
       "equality" := StaticObject (TConst TInt) None;
       "difference" := StaticFunction (Sig [cref TInt; cref TInt] TInt) ]}.

(** Two hand-written structures over [Point], by different authors: [Plane]
    holds functor objects throughout, [Line] uses static member functions
    and passes elements by value.  Neither derives from anything. *)
Definition Plane : class :=
  Class true [] [] None
    {[ "element_type" := Typedef Point;
       "scalar_type" := Typedef TDouble;
       "addition" := StaticObject (TConst (TNamed "PointAdd"))
                       (Some (Sig [cref Point; cref Point] Point));
       "scalar_action" := StaticObject (TConst (TNamed "PointScale"))
                            (Some (Sig [cref TDouble; cref Point] Point));
       "negation" := StaticObject (TConst (TNamed "PointNeg"))
                       (Some (Sig [cref Point] Point));
       "zero_supplier" := StaticObject (TConst (TNamed "PointZero")) (Some (Sig [] Point));
       "equality" := StaticObject (TConst (TNamed "PointEq"))
                       (Some (Sig [cref Point; cref Point] TBool));
       "difference" := StaticObject (TConst (TNamed "PointAdd"))
                         (Some (Sig [cref Point; cref Point] Point)) ]}.

Definition Line : class :=
  Class false [] [] None
    {[ "element_type" := Typedef Point;
       "scalar_type" := Typedef TInt;
       "addition" := StaticFunction (Sig [Point; Point] Point);
       "scalar_action" := StaticFunction (Sig [TInt; Point] Point);
       "negation" := StaticFunction (Sig [Point] Point);
       "zero_supplier" := StaticFunction (Sig [] Point);
       "equality" := StaticFunction (Sig [Point; Point] TBool);
       "difference" := StaticFunction (Sig [Point; Point] Point);
       "origin" := StaticObject (TConst Point) None ]}.

Definition operands : program :=
  {[ (* a scalar with [+ - * ==] and no [/] *)
     "Natural" := Class true [(Add, Natural); (Sub, Natural); (Mul, Natural); (Eq, TBool)]
                    [] None ∅;
     "Point" := Class true [] [] None ∅;
     "PointAdd" := client.functor [cref Point; cref Point] Point;
     "PointScale" := client.functor [cref TDouble; cref Point] Point;
     "NaturalScale" := client.functor [cref Natural; cref Point] Point;
     "PointNeg" := client.functor [cref Point] Point;
     "PointZero" := client.functor [] Point;
     "PointEq" := client.functor [cref Point; cref Point] TBool;
     (* an "addition" of one argument *)
     "Successor" := client.functor [cref Point] Point;
     (* a "distance" whose result is a point, and a proper one *)
     "Midpoint" := client.functor [cref Point; cref Point] Point;
     "Euclid" := client.functor [cref Point; cref Point] TDouble;
     (* norms on points and on integers *)
     "Length" := client.functor [cref Point] TDouble;
     "Magnitude" := client.functor [cref TInt] TInt ]}.

Definition translation_unit : program :=
  {[ "Opaque" := Opaque; "Plane" := Plane; "Line" := Line ]} ∪ operands.

End samples.

(** More client code for the compile-time checks: structures that are
    meant to be instantiated, with the operations as fields, as enumerators
    or as ordinary member functions.
<<
    struct Fields {
      using element_type = Point;  using scalar_type = double;
      PointAdd addition;  PointScale scalar_action;  PointNeg negation;
      PointZero zero_supplier;  PointEq equality;  PointAdd difference;
    };
    struct Tags {
      using element_type = Point;  using scalar_type = double;
      enum { addition, scalar_action, negation, zero_supplier, equality };
      static Point difference(const Point&, const Point&);
    };
    struct Methods {
      using element_type = Point;  using scalar_type = double;
      Point addition(const Point&, const Point&);  /* and so on */
      static Point difference(const Point&, const Point&);
    };
>> *)
Module variants.
Import cpp.

Definition Fields : class :=
  Class true [] [] None
    {[ "element_type" := Typedef samples.Point;
       "scalar_type" := Typedef TDouble;
       "addition" := NonStaticObject (TNamed "PointAdd")
                       (Some (Sig [cref samples.Point; cref samples.Point] samples.Point));
       "scalar_action" := NonStaticObject (TNamed "PointScale")
                            (Some (Sig [cref TDouble; cref samples.Point] samples.Point));
       "negation" := NonStaticObject (TNamed "PointNeg")
                       (Some (Sig [cref samples.Point] samples.Point));
       "zero_supplier" := NonStaticObject (TNamed "PointZero") (Some (Sig [] samples.Point));
       "equality" := NonStaticObject (TNamed "PointEq")
                       (Some (Sig [cref samples.Point; cref samples.Point] TBool));
       "difference" := NonStaticObject (TNamed "PointAdd")
                         (Some (Sig [cref samples.Point; cref samples.Point] samples.Point)) ]}.

Definition Tags : class :=
  Class true [] [] None
    {[ "element_type" := Typedef samples.Point;
       "scalar_type" := Typedef TDouble;
       "addition" := Enumerator;
       "scalar_action" := Enumerator;
       "negation" := Enumerator;
       "zero_supplier" := Enumerator;
       "equality" := Enumerator;
       "difference" :=
         StaticFunction (Sig [cref samples.Point; cref samples.Point] samples.Point) ]}.

Definition Methods : class :=
  Class true [] [] None
    {[ "element_type" := Typedef samples.Point;
       "scalar_type" := Typedef TDouble;
       "addition" :=
         MemberFunction (Sig [cref samples.Point; cref samples.Point] samples.Point);
       "scalar_action" :=
         MemberFunction (Sig [cref TDouble; cref samples.Point] samples.Point);
       "negation" := MemberFunction (Sig [cref samples.Point] samples.Point);
       "zero_supplier" := MemberFunction (Sig [] samples.Point);
       "equality" := MemberFunction (Sig [cref samples.Point; cref samples.Point] TBool);
       "difference" :=
         StaticFunction (Sig [cref samples.Point; cref samples.Point] samples.Point) ]}.

Definition translation_unit : program :=
  {[ "Fields" := Fields; "Tags" := Tags; "Methods" := Methods ]}
  ∪ samples.translation_unit.

End variants.

(** * The axioms the headers document

    The library checks signatures and leaves the axioms to the functors.
    These are the axioms as the headers list them, over the run-time
    structures, with equality of elements read as identity. *)
Module axioms.
Import kuukan.

Section vector_space.
Context (V : VectorSpace.t).

(** vector_space.hpp: addition is associative and commutative with identity
    [zero], and each element has an additive inverse. *)
Record additive_group : Prop := {
  addition_assoc : ∀ a b c,
    VectorSpace.addition V (VectorSpace.addition V a b) c
    = VectorSpace.addition V a (VectorSpace.addition V b c);
  addition_comm : ∀ a b, VectorSpace.addition V a b = VectorSpace.addition V b a;
  addition_zero : ∀ a, VectorSpace.addition V a (VectorSpace.zero_supplier V ()) = a;
  addition_negation : ∀ a,
    VectorSpace.addition V a (VectorSpace.negation V a) = VectorSpace.zero_supplier V ()
}.

(** normed_space.hpp: non-negativity, definiteness, absolute homogeneity
    (of which the induced metric needs the case of the scalar [-1], that is
    [norm(-v) = norm(v)]) and the triangle inequality.  [zero], [plus] and
    [le] are the measure type's [0], [+] and [<=]. *)
Record norm_axioms {M : Type} (zero : M) (plus : M → M → M) (le : M → M → bool)
    (norm : VectorSpace.element_type V → M) : Prop := {
  norm_nonneg : ∀ v, le zero (norm v) = true;
  norm_definite : ∀ v, norm v = zero ↔ v = VectorSpace.zero_supplier V ();
  norm_negation : ∀ v, norm (VectorSpace.negation V v) = norm v;
  norm_triangle : ∀ u v,
    le (norm (VectorSpace.addition V u v)) (plus (norm u) (norm v)) = true
}.
End vector_space.

(** metric_space.hpp: non-negativity, identity of indiscernibles, symmetry
    and the triangle inequality. *)
Record metric_axioms (S : MetricSpaceLike.t)
    (zero : MetricSpaceLike.measure_type S)
    (plus : MetricSpaceLike.measure_type S → MetricSpaceLike.measure_type S
            → MetricSpaceLike.measure_type S)
    (le : MetricSpaceLike.measure_type S → MetricSpaceLike.measure_type S → bool)
    : Prop := {
  metric_nonneg : ∀ a b, le zero (MetricSpaceLike.distance S a b) = true;
  metric_identity : ∀ a b, MetricSpaceLike.distance S a b = zero ↔ a = b;
  metric_symmetry : ∀ a b,
    MetricSpaceLike.distance S a b = MetricSpaceLike.distance S b a;
  metric_triangle : ∀ a b c,
    le (MetricSpaceLike.distance S a c)
       (plus (MetricSpaceLike.distance S a b) (MetricSpaceLike.distance S b c)) = true
}.

(** The integers as a vector space over themselves, normed by the absolute
    value. *)
Definition integers : VectorSpace.t :=
  VectorSpace.Build Z Z Z.add Z.mul Z.opp (λ _, 0%Z) Z.eqb.

Definition normed_integers : NormedSpace.t :=
  NormedSpace.Build (VectorSpace.as_VectorSpaceLike integers) Z Z.abs.

End axioms.

(** * What the compile-time checks accept *)
Module conformance.
Import cpp shape.

Section checks.
Context (Γ : program).

Lemma convertible_to_refl t : convertible_to Γ t t = true.
Proof. unfold convertible_to. by rewrite bool_decide_eq_true_2. Qed.

Lemma passable_refl ps : passable Γ ps ps = true.
Proof.
  induction ps as [|p ps IH]; simpl; [done|].
  by rewrite convertible_to_refl, IH.
Qed.

(** A call with exactly the declared parameter types is well-formed. *)
Lemma call_through_exact ps r : call_through Γ (Some (Sig ps r)) ps = Some r.
Proof. unfold call_through; simpl. by rewrite passable_refl. Qed.

Lemma same_as_true found t : same_as found t = true ↔ found = Some t.
Proof. unfold same_as. apply bool_decide_eq_true. Qed.

Lemma FieldLike_needs_division K :
  binary_result Γ Div K = None → FieldLike Γ K = false.
Proof.
  intros H. unfold FieldLike. rewrite H.
  unfold same_as at 4. rewrite bool_decide_eq_false_2 by done.
  by rewrite andb_false_r.
Qed.

Lemma CallableLike_needs_invocable F R Args :
  invoke_result_t Γ (complete Γ) F Args = None →
  CallableLike Γ (complete Γ) F R Args = false.
Proof.
  intros H. unfold CallableLike, regular_invocable. rewrite H.
  rewrite bool_decide_eq_false_2; [done|]. by intros [? ?].
Qed.

(** ** NormedSpace<VS, NormFunction>, taken apart *)

Lemma NormedSpace_declares_inherited VS N E M name :
  name ∈ inherited → NormedSpace_declares (complete Γ) VS N E M !! name = None.
Proof.
  intros Hin. unfold NormedSpace_declares, inherited in *.
  repeat (apply elem_of_cons in Hin as [->|Hin]; [by simplify_map_eq|]).
  by apply elem_of_nil in Hin.
Qed.

Lemma complete_NormedSpace_inv VS N c :
  complete Γ (TNormedSpace VS N) = Some c →
  ∃ base E M,
    complete Γ VS = Some base
    ∧ typename (complete Γ) VS "element_type" = Some E
    ∧ norm_result Γ (complete Γ) VS N = Some M
    ∧ VectorSpaceLike Γ (complete Γ) VS = true
    ∧ default_initializable (complete Γ) N = true
    ∧ OrderedMeasure Γ M = true
    ∧ members c = NormedSpace_declares (complete Γ) VS N E M ∪ members base.
Proof.
  simpl. unfold NormedSpace.
  destruct (NormedSpace_requires _ _ _ _) eqn:Hreq; [|done].
  unfold NormedSpace_requires in Hreq.
  apply andb_true_iff in Hreq as [Hreq HM].
  apply andb_true_iff in Hreq as [HVS HN].
  destruct (complete Γ VS) as [base|] eqn:Hbase; [|done]. simpl.
  destruct (typename _ _ _) as [E|] eqn:HE; [|done]. simpl.
  destruct (norm_result _ _ _ _) as [M|] eqn:HMr; [|done]. simpl.
  intros [= <-]. exists base, E, M. simpl in HM. done.
Qed.

(** Qualified lookup of an inherited name in the derived class finds the
    base's member. *)
Lemma NormedSpace_inherits VS N c base name :
  complete Γ (TNormedSpace VS N) = Some c →
  complete Γ VS = Some base →
  name ∈ inherited →
  members c !! name = members base !! name.
Proof.
  intros Hc Hbase Hin.
  apply complete_NormedSpace_inv in Hc as (base' & E & M & Hbase' & _ & _ & _ & _ & _ & ->).
  rewrite Hbase in Hbase'. injection Hbase' as <-.
  apply lookup_union_r. by apply NormedSpace_declares_inherited.
Qed.

(** The members the derived class declares itself. *)
Lemma NormedSpace_own VS N c :
  complete Γ (TNormedSpace VS N) = Some c →
  ∃ E M,
    typename (complete Γ) VS "element_type" = Some E
    ∧ norm_result Γ (complete Γ) VS N = Some M
    ∧ members c !! "element_type" = Some (Typedef E)
    ∧ members c !! "measure_type" = Some (Typedef M)
    ∧ members c !! "metric_space"
      = Some (Typedef (TMetricSpace E (TInducedDistance VS N)))
    ∧ members c !! "distance" = Some (StaticFunction (Sig [cref E; cref E] M)).
Proof.
  intros Hc.
  apply complete_NormedSpace_inv in Hc as (base & E & M & _ & HE & HM & _ & _ & _ & ->).
  exists E, M. unfold NormedSpace_declares.
  repeat split; try done; apply lookup_union_Some_l; by simplify_map_eq.
Qed.

(** ** The vector-space role *)

Lemma member_type_Typedef c name t :
  member_type c name = Some t ↔ members c !! name = Some (Typedef t).
Proof.
  unfold member_type. destruct (members c !! name) as [[]|]; split; congruence.
Qed.

Lemma member_expression_value c name :
  member_expression c name = true ↔ exposes c name names_a_value.
Proof.
  unfold member_expression, exposes. split.
  - destruct (members c !! name) as [m|]; [|done].
    intros H. exists m. split; [done|]. destruct m; (done || constructor).
  - intros (m & -> & Hm). by destruct Hm.
Qed.

Lemma call_through_Some sig args r :
  call_through Γ sig args = Some r
  ↔ ∃ s, sig = Some s ∧ passable Γ args (params s) = true ∧ result s = r.
Proof.
  unfold call_through. destruct sig as [s|]; simpl.
  - destruct (passable Γ args (params s)) eqn:Hp; split.
    + intros [= <-]. by exists s.
    + intros (s' & [= <-] & _ & <-). done.
    + done.
    + intros (s' & [= <-] & Hp' & _). congruence.
  - split; [done|]. by intros (s' & ? & _).
Qed.

Lemma member_call_entry c name args r :
  member_call Γ c name args = Some r ↔ exposes c name (entry_point Γ args r).
Proof.
  unfold member_call, exposes. split.
  - destruct (members c !! name) as [m|]; [|done].
    destruct m as [t|t call|s|t call| |s]; try done;
      intros (s' & Hs & Hp & Hr)%call_through_Some; simplify_eq;
      eexists; (split; [done|]); by constructor.
  - intros (m & -> & Hm).
    destruct Hm as [s Hp Hr|t s Hp Hr|t s Hp Hr];
      apply call_through_Some; by exists s.
Qed.

Lemma holds_an_operation_value m : holds_an_operation m → names_a_value m.
Proof. intros []; constructor. Qed.

Lemma exposes_weaken c name (P Q : member → Prop) :
  (∀ m, P m → Q m) → exposes c name P → exposes c name Q.
Proof. intros H (m & Hm & HP). exists m. auto. Qed.

(** Two classes with the same member under [name] expose the same there. *)
Lemma exposes_lookup c c' name P :
  members c !! name = members c' !! name → exposes c name P ↔ exposes c' name P.
Proof. unfold exposes. by intros ->. Qed.

Lemma VectorSpaceLike_spec T :
  VectorSpaceLike Γ (complete Γ) T = true
  ↔ vector_space_shape Γ names_a_value T.
Proof.
  unfold VectorSpaceLike, vector_space_shape. split.
  - destruct (complete Γ T) as [c|]; [|done].
    destruct (member_type c "element_type") as [E|] eqn:HE; [|done].
    destruct (member_type c "scalar_type") as [K|] eqn:HK; [|done].
    rewrite !andb_true_iff, same_as_true, !member_expression_value, member_call_entry.
    apply member_type_Typedef in HE, HK.
    intros [[[[[? ?] ?] ?] ?] ?]. by exists c, E, K.
  - intros (c & E & K & -> & HE & HK & Ha & Hs & Hn & Hz & Hq & Hd).
    apply member_type_Typedef in HE, HK. rewrite HE, HK.
    apply member_expression_value in Ha, Hs, Hn, Hz, Hq.
    apply member_call_entry in Hd.
    rewrite Ha, Hs, Hn, Hz, Hq, Hd. simpl. by apply same_as_true.
Qed.

(** The constraints of the template head are all that the description asks
    of a normed space. *)
Lemma NormedSpace_composes VS N :
  is_Some (complete Γ (TNormedSpace VS N))
  ↔ NormedSpace_requires Γ (complete Γ) VS N = true.
Proof.
  simpl. unfold NormedSpace.
  destruct (NormedSpace_requires Γ (complete Γ) VS N) eqn:Hreq;
    [|split; [by intros [? ?]|done]].
  split; [done|intros _].
  unfold NormedSpace_requires in Hreq.
  apply andb_true_iff in Hreq as [[HVS HN]%andb_true_iff HM].
  assert (∃ M, norm_result Γ (complete Γ) VS N = Some M) as [M HM'].
  { destruct (norm_result Γ (complete Γ) VS N); [eauto|done]. }
  assert (∃ base, complete Γ VS = Some base) as [base Hbase].
  { unfold VectorSpaceLike in HVS. destruct (complete Γ VS); [eauto|done]. }
  assert (∃ E, typename (complete Γ) VS "element_type" = Some E) as [E HE].
  { unfold norm_result in HM'.
    destruct (typename (complete Γ) VS "element_type"); [eauto|done]. }
  rewrite Hbase, HE, HM'. simpl. eauto.
Qed.

(** A normed space has the shape of its base, with holders of the same
    kind. *)
Lemma NormedSpace_shape VS N holder :
  is_Some (complete Γ (TNormedSpace VS N)) →
  vector_space_shape Γ holder (TNormedSpace VS N) ↔ vector_space_shape Γ holder VS.
Proof.
  intros [c Hc].
  destruct (complete_NormedSpace_inv _ _ _ Hc) as (base & E & M & Hbase & HE & _).
  destruct (NormedSpace_own _ _ _ Hc) as (E' & M' & HE' & _ & Hel & _).
  rewrite HE in HE'. injection HE' as <-.
  unfold typename in HE. rewrite Hbase in HE. simpl in HE.
  apply member_type_Typedef in HE.
  assert (Hin : ∀ name, name ∈ inherited → members c !! name = members base !! name).
  { intros name. by apply (NormedSpace_inherits VS N). }
  assert (Hex : ∀ name P, name ∈ inherited → exposes c name P ↔ exposes base name P).
  { intros name P H. apply exposes_lookup, Hin, H. }
  unfold vector_space_shape. split.
  - intros (c' & E' & K & Hc' & HE' & HK & Ha & Hs & Hn & Hz & Hq & Hd).
    rewrite Hc in Hc'. injection Hc' as <-. rewrite Hel in HE'. injection HE' as <-.
    exists base, E, K. split; [done|]. split; [done|].
    split; [by rewrite <- Hin by (unfold inherited; repeat constructor)|].
    repeat apply conj; (apply Hex; [unfold inherited; repeat constructor|done]).
  - intros (c' & E' & K & Hc' & HE' & HK & Ha & Hs & Hn & Hz & Hq & Hd).
    rewrite Hbase in Hc'. injection Hc' as <-. rewrite HE in HE'. injection HE' as <-.
    exists c, E, K. split; [done|]. split; [done|].
    split; [by rewrite Hin by (unfold inherited; repeat constructor)|].
    repeat apply conj; (apply Hex; [unfold inherited; repeat constructor|done]).
Qed.

(** A metric space whose stored distance instance can be called as its type
    was called in the requires-clause passes [MetricSpaceLike]. *)
Lemma MetricSpace_is_MetricSpaceLike E D :
  is_Some (complete Γ (TMetricSpace E D)) →
  MetricSpaceLike Γ (complete Γ) (TMetricSpace E D) = true.
Proof.
  intros [c Hc]. unfold MetricSpaceLike. rewrite Hc.
  simpl in Hc. unfold MetricSpace in Hc.
  destruct (default_initializable _ _ && _); [|done].
  destruct (invoke_result_t _ _ _ _) as [M|] eqn:HM; [|done].
  simpl in Hc. injection Hc as <-.
  unfold member_type, member_call, functor_instance, structure.
  simpl. simplify_map_eq. apply same_as_true.
  unfold invoke_result_t in HM. by destruct (complete Γ D).
Qed.
End checks.

Section roles.
Context (Γ : program).

(** C4.  Malformed template arguments are rejected when the structure is
    defined, and no structure results: a scalar type without [/] fails
    [FieldLike], and with it [VectorSpace]; a distance functor whose result
    type is not an [OrderedMeasure] fails [MetricSpace]; an addition functor
    that cannot be invoked with two elements (wrong arity) fails
    [CallableLike], and with it [VectorSpace]. *)
Theorem composition_rejects_malformed_inputs :
  (∀ E K A SA Ng Z Q,
      binary_result Γ Div K = None →
      FieldLike Γ K = false
      ∧ complete Γ (TVectorSpace E K A SA Ng Z Q) = None)
  ∧ (∀ E D measure,
      invoke_result_t Γ (complete Γ) D [cref E; cref E] = Some measure →
      OrderedMeasure Γ measure = false →
      complete Γ (TMetricSpace E D) = None)
  ∧ (∀ E K A SA Ng Z Q,
      invoke_result_t Γ (complete Γ) A [cref E; cref E] = None →
      CallableLike Γ (complete Γ) A E [cref E; cref E] = false
      ∧ complete Γ (TVectorSpace E K A SA Ng Z Q) = None).
Proof.
  split; [|split].
  - intros E K A SA Ng Z Q H. apply FieldLike_needs_division in H.
    split; [done|]. simpl. unfold VectorSpace. by rewrite H.
  - intros E D measure HM Hord. simpl. unfold MetricSpace.
    rewrite HM. simpl. rewrite Hord. by rewrite andb_false_r.
  - intros E K A SA Ng Z Q H.
    apply (CallableLike_needs_invocable _ _ E) in H.
    split; [done|]. simpl. unfold VectorSpace. rewrite H.
    by rewrite !andb_false_r.
Qed.

(** C5, as amended.  A type passes [VectorSpaceLike] if and only if it
    exposes member type names [element_type] and [scalar_type], exposes
    members named [addition], [scalar_action], [negation], [zero_supplier]
    and [equality] that can be named as values -- a data member, static or
    not, an enumerator or a static member function (one function, not an
    overload set or a template); the check reads neither
    their types nor whether they can be called, so they need be neither
    static nor operations, while a type name or a non-static member function
    under one of the names fails it -- and exposes a [difference] entry
    point, a static member function or a data member that can be called,
    which takes two elements and returns exactly the element type.  A type
    with five static operation-holders under these names passes in
    particular.  The verdict is a function of the member table alone: two
    types with the same members get the same verdict, the same type gets it
    again, and any two types of this shape are both accepted, whoever wrote
    them. *)
Theorem VectorSpaceLike_reads_the_shape :
  (∀ T, VectorSpaceLike Γ (complete Γ) T = true
        ↔ vector_space_shape Γ names_a_value T)
  ∧ (∀ T, vector_space_shape Γ holds_an_operation T
          → VectorSpaceLike Γ (complete Γ) T = true)
  ∧ (∀ T T' c c',
        complete Γ T = Some c → complete Γ T' = Some c' →
        members c = members c' →
        VectorSpaceLike Γ (complete Γ) T = VectorSpaceLike Γ (complete Γ) T')
  ∧ (∀ T T',
        vector_space_shape Γ names_a_value T →
        vector_space_shape Γ names_a_value T' →
        VectorSpaceLike Γ (complete Γ) T = true
        ∧ VectorSpaceLike Γ (complete Γ) T' = true).
Proof.
  split; [apply VectorSpaceLike_spec|]. split; [|split].
  - intros T (c & E & K & ? & ? & ? & ? & ? & ? & ? & ? & ?).
    apply VectorSpaceLike_spec. exists c, E, K.
    repeat apply conj; try done;
      by apply (exposes_weaken _ _ _ _ holds_an_operation_value).
  - intros T T' c c' Hc Hc' Hm. unfold VectorSpaceLike. rewrite Hc, Hc'.
    unfold member_type, member_expression, member_call. by rewrite Hm.
  - intros T T' H H'. by split; apply VectorSpaceLike_spec.
Qed.

(** C9, as amended.  Every [NormedSpace<VS, NormFunction>] that composes
    passes [VectorSpaceLike] itself: it exposes the element and scalar type
    names, the five named members of [VS] -- static operation-holders exactly
    when those of [VS] are, which the check does not ask -- and the
    [difference] of [VS]; its [element_type] is that of [VS].  So it can
    stand wherever a vector-space-like structure is required: a further
    [NormedSpace] with another norm [N'] composes over it exactly when
    [N'] composes over [VS] itself. *)
Theorem NormedSpace_is_VectorSpaceLike VS N :
  is_Some (complete Γ (TNormedSpace VS N)) →
  VectorSpaceLike Γ (complete Γ) (TNormedSpace VS N) = true
  ∧ typename (complete Γ) (TNormedSpace VS N) "element_type"
    = typename (complete Γ) VS "element_type"
  ∧ (vector_space_shape Γ holds_an_operation (TNormedSpace VS N)
     ↔ vector_space_shape Γ holds_an_operation VS)
  ∧ ∀ N', is_Some (complete Γ (TNormedSpace (TNormedSpace VS N) N'))
          ↔ is_Some (complete Γ (TNormedSpace VS N')).
Proof.
  intros Hsome. pose proof Hsome as [c Hc].
  destruct (complete_NormedSpace_inv _ _ _ _ Hc)
    as (base & E & M & Hbase & HE & HM & HVS & HN & HOM & Hmem).
  destruct (NormedSpace_own _ _ _ _ Hc) as (E' & M' & HE' & HM' & Hel & _).
  rewrite HE in HE'. injection HE' as <-.
  assert (Hty : typename (complete Γ) (TNormedSpace VS N) "element_type" = Some E).
  { unfold typename. rewrite Hc. simpl. unfold member_type. by rewrite Hel. }
  assert (Hlike : VectorSpaceLike Γ (complete Γ) (TNormedSpace VS N) = true).
  { apply VectorSpaceLike_spec, NormedSpace_shape, VectorSpaceLike_spec; done. }
  split; [done|]. split; [by rewrite Hty, HE|].
  split; [by apply NormedSpace_shape|].
  intros N'. rewrite !NormedSpace_composes. unfold NormedSpace_requires, norm_result.
  by rewrite Hlike, HVS, Hty, HE.
Qed.

(** C10.  Every [NormedSpace<VS, NormFunction>] that composes passes
    [MetricSpaceLike] itself: it exposes the type names [element_type] and
    [measure_type] and a [distance] entry point that takes two elements and
    returns exactly [measure_type]; that measure type is the result type of
    the norm, and it is also the [measure_type] of the internal
    [metric_space] the structure derives. *)
Theorem NormedSpace_is_MetricSpaceLike VS N :
  is_Some (complete Γ (TNormedSpace VS N)) →
  MetricSpaceLike Γ (complete Γ) (TNormedSpace VS N) = true
  ∧ ∃ element_type measure_type metric_space c,
      complete Γ (TNormedSpace VS N) = Some c
      ∧ typename (complete Γ) (TNormedSpace VS N) "element_type" = Some element_type
      ∧ typename (complete Γ) (TNormedSpace VS N) "measure_type" = Some measure_type
      ∧ member_call Γ c "distance" [cref element_type; cref element_type]
        = Some measure_type
      ∧ norm_result Γ (complete Γ) VS N = Some measure_type
      ∧ typename (complete Γ) (TNormedSpace VS N) "metric_space" = Some metric_space
      ∧ typename (complete Γ) metric_space "measure_type" = Some measure_type.
Proof.
  intros [c Hc].
  destruct (complete_NormedSpace_inv _ _ _ _ Hc)
    as (base & E & M & Hbase & HE & HM & HVS & HN & HOM & Hmem).
  destruct (NormedSpace_own _ _ _ _ Hc) as (E' & M' & HE' & HM' & Hel & Hme & Hms & Hd).
  rewrite HE in HE'. injection HE' as <-. rewrite HM in HM'. injection HM' as <-.
  assert (Hcall : member_call Γ c "distance" [cref E; cref E] = Some M).
  { unfold member_call. rewrite Hd. apply call_through_exact. }
  assert (HtE : typename (complete Γ) (TNormedSpace VS N) "element_type" = Some E).
  { unfold typename. rewrite Hc. simpl. unfold member_type. by rewrite Hel. }
  assert (HtM : typename (complete Γ) (TNormedSpace VS N) "measure_type" = Some M).
  { unfold typename. rewrite Hc. simpl. unfold member_type. by rewrite Hme. }
  split.
  - unfold MetricSpaceLike. rewrite Hc. unfold member_type. rewrite Hel, Hme, Hcall.
    by apply same_as_true.
  - exists E, M, (TMetricSpace E (TInducedDistance VS N)), c.
    repeat split; try done.
    + unfold typename. rewrite Hc. simpl. unfold member_type. by rewrite Hms.
    + assert (Hreq : NormedSpace_requires Γ (complete Γ) VS N = true).
      { unfold NormedSpace_requires. rewrite HVS, HN, HM. done. }
      assert (Hinv : invoke_result_t Γ (complete Γ) (TInducedDistance VS N)
                       [cref E; cref E] = Some M).
      { unfold invoke_result_t. simpl. unfold InducedDistance.
        rewrite Hreq, HE, HM. simpl. by rewrite !convertible_to_refl. }
      unfold typename. simpl. unfold MetricSpace. rewrite Hinv. simpl.
      unfold default_initializable at 1. simpl. unfold InducedDistance at 1.
      rewrite Hreq, HE, HM. simpl. rewrite HOM. simpl.
      unfold member_type. simpl. by simplify_map_eq.
Qed.
End roles.

(** ** The checks on concrete client code *)

(** Closed goals about concrete translation units are settled by running the
    checks. *)
Ltac run_checks :=
  repeat apply conj;
  lazymatch goal with
  | |- is_Some _ => eexists; vm_compute; reflexivity
  | |- _ => vm_compute; reflexivity
  end.

(** The static assertions of core_concepts.hpp. *)
Example FieldLike_arithmetic Γ :
  FieldLike Γ TDouble = true ∧ FieldLike Γ TInt = true
  ∧ OrderedMeasure Γ TDouble = true.
Proof. done. Qed.

(** [struct Add { int operator()(int a, int b) const; };
    static_assert(CallableLike<Add, int, int, int>);] *)
Example CallableLike_Add :
  let Γ : program := {[ "Add" := client.functor [TInt; TInt] TInt ]} in
  CallableLike Γ (complete Γ) (TNamed "Add") TInt [TInt; TInt] = true.
Proof. by vm_compute. Qed.

(** The example program compiles: both of its structures compose, and the
    normed space plays both roles. *)
Example client_composes :
  let Γ := client.translation_unit in
  is_Some (complete Γ client.FunctionVectorSpace)
  ∧ is_Some (complete Γ client.FunctionSupNormedSpace)
  ∧ VectorSpaceLike Γ (complete Γ) client.FunctionVectorSpace = true
  ∧ typename (complete Γ) client.FunctionSupNormedSpace "measure_type" = Some TDouble.
Proof. run_checks. Qed.

(** The well-formed counterparts of the rejected compositions below. *)
Example samples_compose :
  let Γ := samples.translation_unit in
  is_Some (complete Γ
    (TVectorSpace samples.Point TDouble (TNamed "PointAdd") (TNamed "PointScale")
                  (TNamed "PointNeg") (TNamed "PointZero") (TNamed "PointEq")))
  ∧ is_Some (complete Γ (TMetricSpace samples.Point (TNamed "Euclid")))
  ∧ is_Some (complete Γ (TNormedSpace (TNamed "Plane") (TNamed "Length")))
  ∧ is_Some (complete Γ (TNormedSpace (TNamed "Opaque") (TNamed "Magnitude"))).
Proof. run_checks. Qed.

(** [Natural] has no [/], [Midpoint] returns a point, and [Successor] takes
    one argument: none of the three compositions exists. *)
Lemma composition_rejects_malformed_inputs_witness :
  let Γ := samples.translation_unit in
  (binary_result Γ Div samples.Natural = None
   ∧ complete Γ
       (TVectorSpace samples.Point samples.Natural (TNamed "PointAdd")
                     (TNamed "NaturalScale") (TNamed "PointNeg") (TNamed "PointZero")
                     (TNamed "PointEq")) = None)
  ∧ (invoke_result_t Γ (complete Γ) (TNamed "Midpoint")
       [cref samples.Point; cref samples.Point] = Some samples.Point
     ∧ OrderedMeasure Γ samples.Point = false
     ∧ complete Γ (TMetricSpace samples.Point (TNamed "Midpoint")) = None)
  ∧ (invoke_result_t Γ (complete Γ) (TNamed "Successor")
       [cref samples.Point; cref samples.Point] = None
     ∧ complete Γ
         (TVectorSpace samples.Point TDouble (TNamed "Successor") (TNamed "PointScale")
                       (TNamed "PointNeg") (TNamed "PointZero") (TNamed "PointEq")) = None).
Proof.
  destruct (composition_rejects_malformed_inputs samples.translation_unit)
    as (Hscalar & Hmeasure & Harity).
  split; [|split].
  - split; [vm_compute; reflexivity|].
    apply Hscalar. vm_compute. reflexivity.
  - split; [vm_compute; reflexivity|]. split; [vm_compute; reflexivity|].
    apply (Hmeasure _ _ samples.Point); vm_compute; reflexivity.
  - split; [vm_compute; reflexivity|].
    apply Harity. vm_compute. reflexivity.
Defined.

(** C5, as stated, fails on [samples.Opaque]: the type passes
    [VectorSpaceLike], yet none of its five members holds an operation. *)
Lemma Opaque_is_accepted :
  let Γ := samples.translation_unit in
  VectorSpaceLike Γ (complete Γ) (TNamed "Opaque") = true
  ∧ ¬ vector_space_shape Γ holds_an_operation (TNamed "Opaque").
Proof.
  split; [by vm_compute|].
  intros (c & E & K & Hc & _ & _ & (m & Hm & Hop) & _).
  vm_compute in Hc. injection Hc as <-.
  vm_compute in Hm. injection Hm as <-. inversion Hop.
Qed.

(** [Plane] and [Line] share no declaration and both have the shape, with
    static operation-holders; [Fields] and [Tags] pass with holders that
    are not static or not operations; [Methods] does not pass. *)
Lemma VectorSpaceLike_reads_the_shape_witness :
  let Γ := variants.translation_unit in
  (VectorSpaceLike Γ (complete Γ) (TNamed "Plane") = true
   ∧ VectorSpaceLike Γ (complete Γ) (TNamed "Line") = true)
  ∧ VectorSpaceLike Γ (complete Γ) (TNamed "Fields") = true
  ∧ VectorSpaceLike Γ (complete Γ) (TNamed "Tags") = true
  ∧ ¬ vector_space_shape Γ names_a_value (TNamed "Methods").
Proof.
  destruct (VectorSpaceLike_reads_the_shape variants.translation_unit)
    as (Hiff & Hholders & _ & Hboth).
  split; [|split; [|split]].
  - apply Hboth; apply Hiff.
    + apply Hholders. exists samples.Plane, samples.Point, TDouble.
      repeat apply conj; try (vm_compute; reflexivity);
        (eexists; split; [vm_compute; reflexivity|constructor; reflexivity]).
    + apply Hholders. exists samples.Line, samples.Point, TInt.
      repeat apply conj; try (vm_compute; reflexivity);
        (eexists; split; [vm_compute; reflexivity|constructor; reflexivity]).
  - apply Hiff. exists variants.Fields, samples.Point, TDouble.
    repeat apply conj; try (vm_compute; reflexivity);
      (eexists; split; [vm_compute; reflexivity|constructor; reflexivity]).
  - apply Hiff. exists variants.Tags, samples.Point, TDouble.
    repeat apply conj; try (vm_compute; reflexivity);
      (eexists; split; [vm_compute; reflexivity|constructor; reflexivity]).
  - intros H. apply Hiff in H. vm_compute in H. discriminate H.
Defined.

(** C9, as stated, fails on [NormedSpace<Opaque, Magnitude>]: the normed
    space composes and passes [VectorSpaceLike], yet none of the five
    members it exposes holds an operation. *)
Lemma NormedSpace_over_Opaque_holds_no_operation :
  let Γ := samples.translation_unit in
  let T := TNormedSpace (TNamed "Opaque") (TNamed "Magnitude") in
  is_Some (complete Γ T)
  ∧ VectorSpaceLike Γ (complete Γ) T = true
  ∧ ¬ vector_space_shape Γ holds_an_operation T.
Proof.
  split; [eexists; vm_compute; reflexivity|]. split; [by vm_compute|].
  intros (c & E & K & Hc & _ & _ & (m & Hm & Hop) & _).
  vm_compute in Hc. injection Hc as <-.
  vm_compute in Hm. injection Hm as <-. inversion Hop.
Qed.

(** The normed space of the example program, whose base holds operations,
    and the one over [Opaque], whose base does not; a second norm composes
    over each. *)
Lemma NormedSpace_is_VectorSpaceLike_witness :
  (let Γ := client.translation_unit in
   is_Some (complete Γ client.FunctionSupNormedSpace)
   ∧ VectorSpaceLike Γ (complete Γ) client.FunctionSupNormedSpace = true
   ∧ is_Some (complete Γ
        (TNormedSpace client.FunctionSupNormedSpace (TNamed "SupNormPlaceholder"))))
  ∧ (let Γ := samples.translation_unit in
     let T := TNormedSpace (TNamed "Opaque") (TNamed "Magnitude") in
     is_Some (complete Γ T)
     ∧ VectorSpaceLike Γ (complete Γ) T = true
     ∧ is_Some (complete Γ (TNormedSpace T (TNamed "Magnitude")))).
Proof.
  assert (H : is_Some (complete client.translation_unit client.FunctionSupNormedSpace)).
  { eexists. vm_compute. reflexivity. }
  assert (H' : is_Some (complete samples.translation_unit
                  (TNormedSpace (TNamed "Opaque") (TNamed "Magnitude")))).
  { eexists. vm_compute. reflexivity. }
  split.
  - destruct (NormedSpace_is_VectorSpaceLike client.translation_unit
                client.FunctionVectorSpace (TNamed "SupNormPlaceholder") H)
      as (Hlike & _ & _ & Hfurther).
    split; [exact H|]. split; [exact Hlike|]. apply Hfurther. exact H.
  - destruct (NormedSpace_is_VectorSpaceLike samples.translation_unit
                (TNamed "Opaque") (TNamed "Magnitude") H')
      as (Hlike & _ & _ & Hfurther).
    split; [exact H'|]. split; [exact Hlike|]. apply Hfurther. exact H'.
Defined.

Lemma NormedSpace_is_MetricSpaceLike_witness :
  let Γ := client.translation_unit in
  is_Some (complete Γ client.FunctionSupNormedSpace)
  ∧ MetricSpaceLike Γ (complete Γ) client.FunctionSupNormedSpace = true.
Proof.
  assert (H : is_Some (complete client.translation_unit client.FunctionSupNormedSpace)).
  { eexists. vm_compute. reflexivity. }
  split; [exact H|].
  apply (NormedSpace_is_MetricSpaceLike client.translation_unit
           client.FunctionVectorSpace (TNamed "SupNormPlaceholder") H).
Defined.

End conformance.

(** * What the composed structures compute *)
Module behaviour.
Import kuukan.


(** C6.  In every [MetricSpace], [dist(a, b)] returns the value of
    [distance(a, b)], and both are the one injected distance functor applied
    to [a] and [b]. *)
Theorem dist_is_distance (M : MetricSpace.t) (a b : MetricSpace.element_type M) :
  MetricSpace.dist M a b = MetricSpace.distance M a b
  ∧ MetricSpace.distance M a b = MetricSpace.DistanceFunction M a b
  ∧ MetricSpace.dist M a b = MetricSpace.DistanceFunction M a b.
Proof. repeat split. Qed.

(** C1.  In every [NormedSpace] over a vector-space-like [VS] with norm
    functor [N], [distance(a, b)] is [N] applied to [VS::difference(a, b)].
    It gets there through the derived [metric_space], whose distance functor
    is [InducedDistance]; the structure has no distance of its own to supply
    (it is made of [VS] and [N] alone). *)
Theorem distance_is_norm_of_difference
    (N : NormedSpace.t) (a b : NormedSpace.element_type N) :
  NormedSpace.distance N a b
  = NormedSpace.NormFunction N (VectorSpaceLike.difference (NormedSpace.VS N) a b)
  ∧ NormedSpace.distance N a b = MetricSpace.dist (NormedSpace.metric_space N) a b
  ∧ MetricSpace.DistanceFunction (NormedSpace.metric_space N)
    = NormedSpace.InducedDistance N
  ∧ NormedSpace.InducedDistance N a b
    = NormedSpace.norm N (VectorSpaceLike.difference (NormedSpace.VS N) a b).
Proof. repeat split. Qed.

(** C3.  A [NormedSpace] re-exposes the entry points of its base unchanged.
    Qualified lookup of [addition], [scalar_action], [negation],
    [zero_supplier], [equality] and [difference] in a composed
    [NormedSpace<VS, N>] finds the very member of [VS] (the derived class
    declares none of these names); accordingly each of these members of the
    normed space is the member of [VS], and over a [VectorSpace] each returns
    what the vector space's entry point returns, on every input. *)
Theorem NormedSpace_reexposes_base :
  (∀ Γ VS N c base name,
      shape.complete Γ (cpp.TNormedSpace VS N) = Some c →
      shape.complete Γ VS = Some base →
      name ∈ ["addition"; "scalar_action"; "negation"; "zero_supplier";
              "equality"; "difference"] →
      cpp.members c !! name = cpp.members base !! name)
  ∧ (∀ N : NormedSpace.t,
      let derived := NormedSpace.as_VectorSpaceLike N in
      let base := NormedSpace.VS N in
      VectorSpaceLike.addition derived = VectorSpaceLike.addition base
      ∧ VectorSpaceLike.scalar_action derived = VectorSpaceLike.scalar_action base
      ∧ VectorSpaceLike.negation derived = VectorSpaceLike.negation base
      ∧ VectorSpaceLike.zero_supplier derived = VectorSpaceLike.zero_supplier base
      ∧ VectorSpaceLike.equality derived = VectorSpaceLike.equality base
      ∧ VectorSpaceLike.difference derived = VectorSpaceLike.difference base)
  ∧ (∀ (V : VectorSpace.t) (M : Type) (norm : VectorSpace.element_type V → M),
      let derived :=
        NormedSpace.as_VectorSpaceLike
          (NormedSpace.Build (VectorSpace.as_VectorSpaceLike V) M norm) in
      ∀ (a b : VectorSpace.element_type V) (s : VectorSpace.scalar_type V),
        VectorSpaceLike.addition derived a b = VectorSpace.addition V a b
        ∧ VectorSpaceLike.scalar_action derived s a = VectorSpace.scalar_action V s a
        ∧ VectorSpaceLike.negation derived a = VectorSpace.negation V a
        ∧ VectorSpaceLike.zero_supplier derived () = VectorSpace.zero_supplier V ()
        ∧ VectorSpaceLike.equality derived a b = VectorSpace.equality V a b
        ∧ VectorSpaceLike.difference derived a b = VectorSpace.difference V a b).
Proof.
  split; [|split].
  - intros Γ VS N c base name Hc Hbase Hin.
    apply (conformance.NormedSpace_inherits Γ VS N); [done..|].
    unfold shape.inherited. by apply list_elem_of_further.
  - intros N. repeat split.
  - intros V M norm derived a b s. repeat split.
Qed.

(** C7.  With a norm functor that returns the same value [zero] for every
    element, [distance(a, b)] is [zero] for every pair, equal or not.  In the
    example function space, whose placeholder norm returns [0.0], both
    [distance(sin, cos)] and [distance(sin, sin)] are exactly [0.0], although
    [sin] and [cos] are different elements that the space's own [equality]
    tells apart.  Both values come out of the same derived path, which does
    not depend on the norm being constant: whatever the norm functor, over
    any base and over the example's vector space in particular,
    [distance(a, b)] is [dist] of the derived [metric_space], whose distance
    functor is [InducedDistance], and is the norm functor applied once to
    [difference(a, b)]; for the two pairs the norm is applied to the elements
    labelled [(sin + (-cos))] and [(sin + (-sin))]. *)
Theorem zero_norm_zero_distance :
  (∀ (VS : VectorSpaceLike.t) (M : Type) (zero : M)
     (N : VectorSpaceLike.element_type VS → M),
      (∀ x, N x = zero) →
      ∀ a b, NormedSpace.distance (NormedSpace.Build VS M N) a b = zero)
  ∧ (∀ to_string sin cos,
      let space := example.FunctionSupNormedSpace to_string in
      let base := example.FunctionVectorSpace to_string in
      let s := example.sin_function sin in
      let c := example.cos_function cos in
      NormedSpace.distance space s c = 0%float
      ∧ NormedSpace.distance space s s = 0%float
      ∧ example.abstract_distance to_string sin cos = 0%float
      ∧ s ≠ c
      ∧ VectorSpace.equality base s c = false
      ∧ NormedSpace.distance space s c
        = example.SupNormPlaceholder (VectorSpace.difference base s c)
      ∧ NormedSpace.distance space s s
        = example.SupNormPlaceholder (VectorSpace.difference base s s))
  ∧ (∀ (VS : VectorSpaceLike.t) (M : Type)
       (N : VectorSpaceLike.element_type VS → M) a b,
      let space := NormedSpace.Build VS M N in
      NormedSpace.distance space a b = N (VectorSpaceLike.difference VS a b)
      ∧ NormedSpace.distance space a b
        = MetricSpace.dist (NormedSpace.metric_space space) a b
      ∧ MetricSpace.DistanceFunction (NormedSpace.metric_space space) a b
        = N (VectorSpaceLike.difference VS a b))
  ∧ (∀ to_string sin cos (M : Type) (N : example.RealFunctionElement → M),
      let base := example.FunctionVectorSpace to_string in
      let space := NormedSpace.Build (VectorSpace.as_VectorSpaceLike base) M N in
      let s := example.sin_function sin in
      let c := example.cos_function cos in
      example.FunctionSupNormedSpace to_string
      = NormedSpace.Build (VectorSpace.as_VectorSpaceLike base) float
          example.SupNormPlaceholder
      ∧ (∀ a b, NormedSpace.distance space a b
                = N (example.FunctionAddition a (example.FunctionNegation b)))
      ∧ NormedSpace.distance space s c = N (VectorSpace.difference base s c)
      ∧ NormedSpace.distance space s s = N (VectorSpace.difference base s s)
      ∧ example.symbolic_identity (VectorSpace.difference base s c) = "(sin + (-cos))"
      ∧ example.symbolic_identity (VectorSpace.difference base s s) = "(sin + (-sin))").
Proof.
  split; [|split; [|split]].
  - intros VS M zero N Hzero a b.
    unfold NormedSpace.distance, MetricSpace.dist, MetricSpace.distance. simpl.
    unfold NormedSpace.InducedDistance, NormedSpace.norm. simpl.
    apply Hzero.
  - intros to_string sin cos space base s c. repeat split.
    intros H. by apply (f_equal example.symbolic_identity) in H.
  - intros VS M N a b space. repeat split.
  - intros to_string sin cos M N base space s c. repeat split.
Qed.

(** C8.  In the example function space addition labels its result
    ["(L + R)"], negation labels it ["(-L)"], and equality compares labels.
    For [sin] and [cos]: [addition(sin, cos)] is labelled ["(sin + cos)"],
    [negation(cos)] is labelled ["(-cos)"],
    [equality(addition(sin, cos), addition(sin, cos))] is true and
    [equality(sin, cos)] is false. *)
Theorem function_space_labels to_string sin cos :
  let space := example.FunctionVectorSpace to_string in
  let s := example.sin_function sin in
  let c := example.cos_function cos in
  (∀ l r, example.symbolic_identity (VectorSpace.addition space l r)
          = "(" +:+ example.symbolic_identity l +:+ " + "
                +:+ example.symbolic_identity r +:+ ")")
  ∧ (∀ l, example.symbolic_identity (VectorSpace.negation space l)
          = "(-" +:+ example.symbolic_identity l +:+ ")")
  ∧ (∀ l r, VectorSpace.equality space l r
            = String.eqb (example.symbolic_identity l) (example.symbolic_identity r))
  ∧ example.symbolic_identity (VectorSpace.addition space s c) = "(sin + cos)"
  ∧ example.symbolic_identity (example.sum_function to_string sin cos) = "(sin + cos)"
  ∧ example.symbolic_identity (VectorSpace.negation space c) = "(-cos)"
  ∧ example.symbolic_identity (example.neg_function to_string cos) = "(-cos)"
  ∧ VectorSpace.equality space
      (VectorSpace.addition space s c) (VectorSpace.addition space s c) = true
  ∧ VectorSpace.equality space s c = false.
Proof. repeat split. Qed.

(** The integers as a vector space over themselves: with a norm that is
    constantly [0] the distance between [3] and [5] is [0]; with the
    absolute value as norm it is [2], the norm of [3 + (-5)]. *)
Lemma zero_norm_zero_distance_witness :
  let integers :=
    VectorSpace.as_VectorSpaceLike
      (VectorSpace.Build Z Z Z.add Z.mul Z.opp (λ _, 0%Z) Z.eqb) in
  NormedSpace.distance (NormedSpace.Build integers Z (λ _, 0%Z)) 3%Z 5%Z = 0%Z
  ∧ NormedSpace.distance (NormedSpace.Build integers Z Z.abs) 3%Z 5%Z = 2%Z.
Proof.
  split.
  - apply (proj1 zero_norm_zero_distance
             (VectorSpace.as_VectorSpaceLike
                (VectorSpace.Build Z Z Z.add Z.mul Z.opp (λ _, 0%Z) Z.eqb))
             Z 0%Z (λ _, 0%Z)).
    intros x. reflexivity.
  - etransitivity.
    + apply (proj1 (proj2 (proj2 zero_norm_zero_distance))
               (VectorSpace.as_VectorSpaceLike
                  (VectorSpace.Build Z Z Z.add Z.mul Z.opp (λ _, 0%Z) Z.eqb))
               Z Z.abs 3%Z 5%Z).
    + reflexivity.
Defined.

(** In the example program, [FunctionSupNormedSpace::difference] is
    [FunctionVectorSpace::difference]. *)
Lemma NormedSpace_reexposes_base_witness :
  ∃ c base,
    shape.complete client.translation_unit client.FunctionSupNormedSpace = Some c
    ∧ shape.complete client.translation_unit client.FunctionVectorSpace = Some base
    ∧ cpp.members c !! "difference" = cpp.members base !! "difference".
Proof.
  destruct (shape.complete client.translation_unit client.FunctionSupNormedSpace)
    as [c|] eqn:Hc; [|vm_compute in Hc; discriminate Hc].
  destruct (shape.complete client.translation_unit client.FunctionVectorSpace)
    as [base|] eqn:Hbase; [|vm_compute in Hbase; discriminate Hbase].
  exists c, base. split; [reflexivity|]. split; [reflexivity|].
  apply (proj1 NormedSpace_reexposes_base client.translation_unit
           client.FunctionVectorSpace (cpp.TNamed "SupNormPlaceholder") c base).
  - exact Hc.
  - exact Hbase.
  - repeat constructor.
Defined.

End behaviour.

(** * More on what composes *)
Module composition.
Import cpp shape conformance.

Section templates.
Context (Γ : program).

(** X5.  The metric space a composed [NormedSpace<VS, N>] derives always
    exists: [InducedDistance] is default-initializable and callable on two
    elements with result [measure_type], so
    [MetricSpace<element_type, InducedDistance>], which both [metric_space]
    and [metric_type] name, composes, passes [MetricSpaceLike] and has the
    normed space's element type. *)
Theorem NormedSpace_derives_a_metric_space VS N :
  is_Some (complete Γ (TNormedSpace VS N)) →
  ∃ E M,
    typename (complete Γ) (TNormedSpace VS N) "element_type" = Some E
    ∧ typename (complete Γ) (TNormedSpace VS N) "measure_type" = Some M
    ∧ typename (complete Γ) (TNormedSpace VS N) "metric_space"
      = Some (TMetricSpace E (TInducedDistance VS N))
    ∧ typename (complete Γ) (TNormedSpace VS N) "metric_type"
      = Some (TMetricSpace E (TInducedDistance VS N))
    ∧ default_initializable (complete Γ) (TInducedDistance VS N) = true
    ∧ invoke_result_t Γ (complete Γ) (TInducedDistance VS N) [cref E; cref E] = Some M
    ∧ is_Some (complete Γ (TMetricSpace E (TInducedDistance VS N)))
    ∧ MetricSpaceLike Γ (complete Γ) (TMetricSpace E (TInducedDistance VS N)) = true
    ∧ typename (complete Γ) (TMetricSpace E (TInducedDistance VS N)) "element_type"
      = Some E.
Proof.
  intros [c Hc].
  destruct (complete_NormedSpace_inv _ _ _ _ Hc)
    as (base & E & M & Hbase & HE & HM & HVS & HN & HOM & Hmem).
  assert (Hreq : NormedSpace_requires Γ (complete Γ) VS N = true).
  { unfold NormedSpace_requires. by rewrite HVS, HN, HM. }
  assert (Hdi : default_initializable (complete Γ) (TInducedDistance VS N) = true).
  { unfold default_initializable. simpl. unfold InducedDistance.
    by rewrite Hreq, HE, HM. }
  assert (Hinv : invoke_result_t Γ (complete Γ) (TInducedDistance VS N)
                   [cref E; cref E] = Some M).
  { unfold invoke_result_t. simpl. unfold InducedDistance.
    rewrite Hreq, HE, HM. simpl. by rewrite !convertible_to_refl. }
  assert (Hms : ∃ m, complete Γ (TMetricSpace E (TInducedDistance VS N)) = Some m
                     ∧ member_type m "element_type" = Some E).
  { simpl. unfold MetricSpace. rewrite Hinv, Hdi. simpl. rewrite HOM. simpl.
    eexists. split; [done|]. unfold member_type. simpl. by simplify_map_eq. }
  destruct Hms as (m & Hm & HmE).
  exists E, M.
  assert (Hown : ∀ name t,
            NormedSpace_declares (complete Γ) VS N E M !! name = Some (Typedef t) →
            typename (complete Γ) (TNormedSpace VS N) name = Some t).
  { intros name t H. unfold typename. rewrite Hc. simpl. unfold member_type.
    rewrite Hmem. by rewrite (lookup_union_Some_l _ _ _ _ H). }
  do 4 (split; [apply Hown; unfold NormedSpace_declares; by simplify_map_eq|]).
  split; [done|]. split; [done|]. split; [eauto|].
  split; [apply MetricSpace_is_MetricSpaceLike; eauto|].
  unfold typename. by rewrite Hm.
Qed.

(** X6.  A field-like type whose [<] and [<=] convert to [bool] is an ordered
    measure: the scalar type of a vector space can serve as the result type
    of its norm as soon as it is ordered. *)
Theorem ordered_field_is_a_measure K :
  FieldLike Γ K = true →
  converts Γ (binary_result Γ Lt K) TBool = true →
  converts Γ (binary_result Γ Le K) TBool = true →
  OrderedMeasure Γ K = true.
Proof.
  unfold FieldLike, OrderedMeasure. rewrite !andb_true_iff.
  intros [[[[-> _] _] _] ->] -> ->. done.
Qed.

End templates.

(** The metric space derived in the example program. *)
Lemma NormedSpace_derives_a_metric_space_witness :
  is_Some (complete client.translation_unit client.FunctionSupNormedSpace)
  ∧ MetricSpaceLike client.translation_unit (complete client.translation_unit)
      (TMetricSpace client.RealFunctionElement
         (TInducedDistance client.FunctionVectorSpace (TNamed "SupNormPlaceholder")))
    = true.
Proof.
  assert (H : is_Some (complete client.translation_unit client.FunctionSupNormedSpace)).
  { eexists. vm_compute. reflexivity. }
  split; [exact H|].
  destruct (NormedSpace_derives_a_metric_space client.translation_unit
              client.FunctionVectorSpace (TNamed "SupNormPlaceholder") H)
    as (E & M & HE & _ & _ & _ & _ & _ & _ & Hlike & _).
  vm_compute in HE. injection HE as <-. exact Hlike.
Defined.

(** [double] is field-like and ordered. *)
Lemma ordered_field_is_a_measure_witness :
  FieldLike ∅ TDouble = true ∧ OrderedMeasure ∅ TDouble = true.
Proof.
  split; [reflexivity|].
  apply (ordered_field_is_a_measure ∅ TDouble); reflexivity.
Defined.

End composition.

(** * The metric a norm induces *)
Module induced_metric.
Import kuukan axioms.

Section group.
Context (V : VectorSpace.t) (G : additive_group V).

Local Notation "a ⊕ b" := (VectorSpace.addition V a b) (at level 50, left associativity).
Local Notation "⊖ a" := (VectorSpace.negation V a) (at level 35, right associativity).
Local Notation "𝟬" := (VectorSpace.zero_supplier V ()).

Lemma zero_addition a : 𝟬 ⊕ a = a.
Proof. rewrite (addition_comm V G). apply (addition_zero V G). Qed.

Lemma negation_addition a : ⊖ a ⊕ a = 𝟬.
Proof. rewrite (addition_comm V G). apply (addition_negation V G). Qed.

Lemma negation_unique a b : a ⊕ b = 𝟬 → b = ⊖ a.
Proof.
  intros H.
  rewrite <- (zero_addition b), <- (negation_addition a).
  rewrite (addition_assoc V G), H. by rewrite (addition_zero V G).
Qed.

Lemma difference_self a : VectorSpace.difference V a a = 𝟬.
Proof. apply (addition_negation V G). Qed.

Lemma difference_zero_eq a b : VectorSpace.difference V a b = 𝟬 → a = b.
Proof.
  unfold VectorSpace.difference. intros H.
  rewrite <- (addition_zero V G a), <- (negation_addition b).
  rewrite <- (addition_assoc V G), H. apply zero_addition.
Qed.

Lemma difference_swap a b :
  VectorSpace.difference V b a = ⊖ VectorSpace.difference V a b.
Proof.
  apply negation_unique. unfold VectorSpace.difference.
  rewrite (addition_assoc V G a), <- (addition_assoc V G (⊖ b)).
  rewrite negation_addition, zero_addition. apply (addition_negation V G).
Qed.

Lemma difference_chain a b c :
  VectorSpace.difference V a c
  = VectorSpace.difference V a b ⊕ VectorSpace.difference V b c.
Proof.
  unfold VectorSpace.difference.
  rewrite (addition_assoc V G a), <- (addition_assoc V G (⊖ b)).
  by rewrite negation_addition, zero_addition.
Qed.

Lemma difference_translate a b c :
  VectorSpace.difference V (a ⊕ c) (b ⊕ c) = VectorSpace.difference V a b.
Proof.
  rewrite (difference_chain (a ⊕ c) a (b ⊕ c)).
  assert (H1 : VectorSpace.difference V (a ⊕ c) a = c).
  { unfold VectorSpace.difference. rewrite (addition_comm V G a c).
    rewrite (addition_assoc V G). rewrite (addition_negation V G).
    apply (addition_zero V G). }
  assert (H2 : VectorSpace.difference V a (b ⊕ c) = VectorSpace.difference V a b ⊕ ⊖ c).
  { rewrite (difference_chain a b (b ⊕ c)). f_equal.
    rewrite difference_swap. f_equal.
    unfold VectorSpace.difference. rewrite (addition_comm V G b c).
    rewrite (addition_assoc V G). rewrite (addition_negation V G).
    apply (addition_zero V G). }
  rewrite H1, H2. rewrite (addition_comm V G c).
  rewrite (addition_assoc V G), negation_addition. apply (addition_zero V G).
Qed.
End group.

Section metric.
Context (V : VectorSpace.t) {M : Type} (zero : M) (plus : M → M → M) (le : M → M → bool).
Context (norm : VectorSpace.element_type V → M).

(** X7.  "This induced metric automatically satisfies all metric space
    axioms if the norm satisfies the norm axioms": over a vector space whose
    addition is an abelian group with [negation] and [zero_supplier], a norm
    that is non-negative, definite, even ([norm(-v) = norm(v)]) and
    subadditive gives a [distance] that is non-negative, zero exactly
    between equal elements, symmetric and subject to the triangle
    inequality. *)
Theorem induced_distance_is_a_metric :
  additive_group V →
  norm_axioms V zero plus le norm →
  metric_axioms
    (NormedSpace.as_MetricSpaceLike
       (NormedSpace.Build (VectorSpace.as_VectorSpaceLike V) M norm))
    zero plus le.
Proof.
  intros G Hn. split; simpl.
  - intros a b. apply (norm_nonneg V _ _ _ _ Hn).
  - intros a b. unfold NormedSpace.distance, MetricSpace.dist, MetricSpace.distance; simpl.
    unfold NormedSpace.InducedDistance, NormedSpace.norm; simpl.
    rewrite (norm_definite V _ _ _ _ Hn). split.
    + apply (difference_zero_eq V G).
    + intros ->. apply (difference_self V G).
  - intros a b. unfold NormedSpace.distance, MetricSpace.dist, MetricSpace.distance; simpl.
    unfold NormedSpace.InducedDistance, NormedSpace.norm; simpl.
    rewrite (difference_swap V G b a). by rewrite (norm_negation V _ _ _ _ Hn).
  - intros a b c. unfold NormedSpace.distance, MetricSpace.dist, MetricSpace.distance; simpl.
    unfold NormedSpace.InducedDistance, NormedSpace.norm; simpl.
    rewrite (difference_chain V G a b c). apply (norm_triangle V _ _ _ _ Hn).
Qed.

(** X8.  Over a vector space whose addition is an abelian group, the induced
    distance is invariant under translation, whatever the norm:
    [distance(a + c, b + c) = distance(a, b)]. *)
Theorem induced_distance_is_translation_invariant :
  additive_group V →
  ∀ a b c,
    NormedSpace.distance (NormedSpace.Build (VectorSpace.as_VectorSpaceLike V) M norm)
      (VectorSpace.addition V a c) (VectorSpace.addition V b c)
    = NormedSpace.distance (NormedSpace.Build (VectorSpace.as_VectorSpaceLike V) M norm) a b.
Proof.
  intros G a b c. unfold NormedSpace.distance, MetricSpace.dist, MetricSpace.distance; simpl.
  unfold NormedSpace.InducedDistance, NormedSpace.norm; simpl.
  by rewrite (difference_translate V G).
Qed.
End metric.



(** The integers with the absolute value: [distance(a, b) = |a - b|] is a
    metric. *)
Lemma induced_distance_is_a_metric_witness :
  metric_axioms (NormedSpace.as_MetricSpaceLike normed_integers) 0%Z Z.add Z.leb
  ∧ NormedSpace.distance normed_integers 3%Z 5%Z = 2%Z.
Proof.
  split; [|reflexivity].
  apply (induced_distance_is_a_metric integers 0%Z Z.add Z.leb Z.abs).
  - split; simpl; intros; lia.
  - split; simpl; intros; [apply Z.leb_le; lia | lia | lia | apply Z.leb_le; lia].
Defined.

Lemma induced_distance_is_translation_invariant_witness :
  NormedSpace.distance normed_integers (3 + 10)%Z (5 + 10)%Z
  = NormedSpace.distance normed_integers 3%Z 5%Z.
Proof.
  apply (induced_distance_is_translation_invariant integers Z.abs).
  split; simpl; intros; lia.
Defined.


End induced_metric.

(** * The function space under its symbolic equality *)
Module symbolic.
Import kuukan axioms example.

Lemma length_append (s t : string) :
  String.length (s +:+ t) = String.length s + String.length t.
Proof. induction s as [|c s IH]; simpl; [done|]. by rewrite IH. Qed.

Lemma append_assoc (s t u : string) : (s +:+ t) +:+ u = s +:+ (t +:+ u).
Proof.
  induction s as [|c s IH]; [done|].
  change (String c ((s +:+ t) +:+ u) = String c (s +:+ (t +:+ u))).
  by rewrite IH.
Qed.

Lemma eqb_length (s t : string) :
  String.length s ≠ String.length t → String.eqb s t = false.
Proof. intros H. apply String.eqb_neq. by intros ->. Qed.

Section space.
Context (to_string : ScalarType → string).

Local Abbreviation space := (FunctionVectorSpace to_string).

Lemma equality_label f g :
  VectorSpace.equality space f g = true ↔ symbolic_identity f = symbolic_identity g.
Proof. apply String.eqb_eq. Qed.

(** X10.  In the example function space [equality] looks at the labels
    only: it holds exactly between elements with the same symbolic identity,
    whatever their evaluators.  It is reflexive, symmetric and transitive,
    and addition, the derived difference, negation and scaling all
    preserve it. *)
Theorem symbolic_equality_is_a_congruence :
  (∀ f g, VectorSpace.equality space f g = true
          ↔ symbolic_identity f = symbolic_identity g)
  ∧ (∀ f, VectorSpace.equality space f f = true)
  ∧ (∀ f g, VectorSpace.equality space f g = VectorSpace.equality space g f)
  ∧ (∀ f g h, VectorSpace.equality space f g = true →
              VectorSpace.equality space g h = true →
              VectorSpace.equality space f h = true)
  ∧ (∀ l l' r r', VectorSpace.equality space l l' = true →
                  VectorSpace.equality space r r' = true →
                  VectorSpace.equality space
                    (VectorSpace.addition space l r) (VectorSpace.addition space l' r') = true
                  ∧ VectorSpace.equality space
                      (VectorSpace.difference space l r)
                      (VectorSpace.difference space l' r') = true)
  ∧ (∀ s f f', VectorSpace.equality space f f' = true →
               VectorSpace.equality space
                 (VectorSpace.negation space f) (VectorSpace.negation space f') = true
               ∧ VectorSpace.equality space
                   (VectorSpace.scalar_action space s f)
                   (VectorSpace.scalar_action space s f') = true).
Proof.
  split; [apply equality_label|]. split; [|split; [|split; [|split]]].
  - intros f. apply String.eqb_refl.
  - intros f g. apply String.eqb_sym.
  - intros f g h. rewrite !equality_label. congruence.
  - intros l l' r r'. rewrite !equality_label. simpl. by intros -> ->.
  - intros s f f'. rewrite !equality_label. simpl. by intros ->.
Qed.

(** X11.  Under that equality the example structure does not obey the
    vector-space axioms.  [difference(f, g)] is labelled ["(L + (-R))"], so
    [f - f] is never equal to the zero function; indeed no sum, negation or
    scaled function is.  Nor is [f + 0] equal to [f], [-(-f)] to [f], or a
    scaled [f] to [f].  With equality read as identity the additive-group
    axioms fail as well. *)
Theorem symbolic_equality_breaks_the_axioms :
  (∀ f g, symbolic_identity (VectorSpace.difference space f g)
          = "(" +:+ symbolic_identity f +:+ " + (-" +:+ symbolic_identity g +:+ "))")
  ∧ (∀ f, VectorSpace.equality space
            (VectorSpace.difference space f f) (VectorSpace.zero_supplier space ()) = false)
  ∧ (∀ f g s,
        VectorSpace.equality space
          (VectorSpace.addition space f g) (VectorSpace.zero_supplier space ()) = false
        ∧ VectorSpace.equality space
            (VectorSpace.negation space f) (VectorSpace.zero_supplier space ()) = false
        ∧ VectorSpace.equality space
            (VectorSpace.scalar_action space s f) (VectorSpace.zero_supplier space ()) = false)
  ∧ (∀ f, VectorSpace.equality space
            (VectorSpace.addition space f (VectorSpace.zero_supplier space ())) f = false)
  ∧ (∀ f, VectorSpace.equality space
            (VectorSpace.negation space (VectorSpace.negation space f)) f = false)
  ∧ (∀ s f, VectorSpace.equality space (VectorSpace.scalar_action space s f) f = false)
  ∧ ¬ additive_group space.
Proof.
  assert (Hzero : ∀ f, VectorSpace.equality space
            (VectorSpace.addition space f (VectorSpace.zero_supplier space ())) f = false).
  { intros f. apply eqb_length. simpl. rewrite !length_append. simpl. lia. }
  split; [|split; [|split; [|split; [|split; [|split]]]]].
  - intros f g.
    change ("(" +:+ symbolic_identity f +:+ " + (-"
                +:+ ((symbolic_identity g +:+ ")") +:+ ")")
            = "(" +:+ symbolic_identity f +:+ " + (-"
                  +:+ (symbolic_identity g +:+ (")" +:+ ")"))).
    by rewrite append_assoc.
  - done.
  - done.
  - apply Hzero.
  - intros f. apply eqb_length. simpl. rewrite !length_append. simpl. lia.
  - intros s f. apply eqb_length. simpl. rewrite !length_append. simpl. lia.
  - intros G.
    pose (f := FunctionZeroSupplier ()).
    pose proof (addition_zero _ G f) as H.
    apply (f_equal symbolic_identity) in H. discriminate H.
Qed.
End space.
End symbolic.
